(** * MNIST VAE experiment manager: a shallow embedding

    Embedding of [experiments/mnist_experiment/experiment_manager.py]
    (class [MnistExperiment]).  Tensors are modelled by value (a shape and
    the row-major list of entries); the scalar type of the entries and the
    numerical primitives of the tensor library ([mean], unary minus) are
    parameters, as are the collaborators the class is wired to (the model,
    the argument parser, the image-grid utilities).  Python exceptions are
    values of [exn]; code that reads or changes the model or writes image
    files runs in a state-and-exception monad over [World]. *)

From Stdlib Require Import Ascii QArith.
From stdpp Require Import gmap strings list pretty.

Open Scope string_scope.
Open Scope list_scope.
Open Scope nat_scope.

(** ** Exceptions and results *)

Inductive exn : Type :=
| RuntimeError (msg : string)      (* raised by this file, with its message *)
| TorchRuntimeError (op : string)  (* RuntimeError raised inside torch by [op];
                                      its text is not modelled *)
| IndexError
| KeyError (key : string)
| StopIteration
| AssertionError
| ZeroDivisionError
| CollaboratorError (msg : string). (* anything a collaborator raises *)

Inductive result (A : Type) : Type :=
| Ok (a : A)
| Raise (e : exn).
Arguments Ok {A} a.
Arguments Raise {A} e.

Definition is_ok {A} (r : result A) : bool :=
  match r with Ok _ => true | Raise _ => false end.

(** ** Tensors *)

Section Tensors.
Context {R : Type}.

Record Tensor : Type := mkTensor { shape : list nat; data : list R }.

Definition numel_of (s : list nat) : nat := foldr Nat.mul 1 s.

(** A tensor holds as many entries as its shape says. *)
Definition wf (t : Tensor) : Prop := length (data t) = numel_of (shape t).

(** The [k]-th block of [d] consecutive entries. *)
Definition chunk (d k : nat) (l : list R) : list R := take d (drop (k * d) l).

(** [t.shape[0]] *)
Definition shape0 (t : Tensor) : result nat :=
  match shape t with
  | [] => Raise IndexError
  | b :: _ => Ok b
  end.

(** [t.size(i)] *)
Definition size (t : Tensor) (i : nat) : result nat :=
  match shape t !! i with
  | Some d => Ok d
  | None => Raise IndexError
  end.

(** [t[:k]]: the first [k] slices along dimension 0 (all of them when
    there are fewer). *)
Definition slice_to (t : Tensor) (k : nat) : result Tensor :=
  match shape t with
  | [] => Raise IndexError
  | b :: rest =>
      Ok {| shape := Nat.min k b :: rest;
            data := take (Nat.min k b * numel_of rest) (data t) |}
  end.

(** [t[k]]: the [k]-th slice along dimension 0. *)
Definition select (t : Tensor) (k : nat) : option Tensor :=
  match shape t with
  | [] => None
  | b :: rest =>
      if decide (k < b)
      then Some {| shape := rest; data := chunk (numel_of rest) k (data t) |}
      else None
  end.

(** [torch.stack([a, b])] *)
Definition stack (a b : Tensor) : result Tensor :=
  if decide (shape a = shape b)
  then Ok {| shape := 2 :: shape a; data := data a ++ data b |}
  else Raise (TorchRuntimeError "stack").

(** [t.permute(1, 0, 2, 3, 4)]: entry [i][j] of the result is entry
    [j][i] of [t]. *)
Definition permute_1_0_2_3_4 (t : Tensor) : result Tensor :=
  match shape t with
  | [a; b; c; h; w] =>
      let d := numel_of [c; h; w] in
      Ok {| shape := [b; a; c; h; w];
            data := flat_map (fun i =>
                      flat_map (fun j => chunk d (j * b + i) (data t))
                               (seq 0 a))
                      (seq 0 b) |}
  | _ => Raise (TorchRuntimeError "permute")
  end.

(** [t.reshape(s)]: same entries in the same order, when the counts agree. *)
Definition reshape (t : Tensor) (s : list nat) : result Tensor :=
  if decide (numel_of s = numel_of (shape t))
  then Ok {| shape := s; data := data t |}
  else Raise (TorchRuntimeError "reshape").

(** [t.to(device)] and [t.cpu()] change where a tensor is stored, not its
    value. *)
Definition to_device (t : Tensor) : Tensor := t.
Definition cpu (t : Tensor) : Tensor := t.

(** The numerical primitives of the tensor library on the entries: the
    mean of a list of entries as torch computes it, and unary minus. *)
Class TorchOps : Type := {
  mean : list R → R;
  neg : R → R
}.
Context `{!TorchOps}.

(** A 0-dimensional tensor: one entry. *)
Definition scalar (v : R) : Tensor := {| shape := []; data := [v] |}.

(** [t.mean()] *)
Definition tmean (t : Tensor) : Tensor := scalar (mean (data t)).

(** [- t] *)
Definition tneg (t : Tensor) : Tensor :=
  {| shape := shape t; data := neg <$> data t |}.

(** A Python dict with string keys and tensor values. *)
Definition getitem (d : gmap string Tensor) (k : string) : result Tensor :=
  match d !! k with
  | Some v => Ok v
  | None => Raise (KeyError k)
  end.
End Tensors.
Arguments Tensor R : clear implicits.
Arguments TorchOps R : clear implicits.

(** ** Configuration *)

(** The parsed options ([argparse.Namespace]); the two floating-point
    options ([lr], [weight_decay]) are read only by the optimizer and are
    left out. *)
Record Namespace : Type := mkNamespace {
  batch_size : Z;
  test_batch_size : Z;
  seed : Z;
  train_log_every : Z;
  test_log_every : Z;
  checkpoint_every : Z;
  resume : string;
  loglikelihood_every : Z;
  loglikelihood_samples : Z;
  dry_run : bool;
  additional_descr : string
}.

(** Defaults handed to the parser. *)
Inductive default_value : Type :=
| DInt (z : Z)
| DFloat (literal : string)
| DStr (s : string).

Definition required_args : list (string * default_value) :=
  [ ("batch_size", DInt 64);
    ("test_batch_size", DInt 1000);
    ("lr", DFloat "1e-3");
    ("seed", DInt 54321);
    ("train_log_every", DInt 1000);
    ("test_log_every", DInt 1000);
    ("checkpoint_every", DInt 10000);
    ("resume", DStr "");
    ("loglikelihood_every", DInt 50000);
    ("loglikelihood_samples", DInt 100) ].

Record argument : Type := mkArgument {
  arg_flag : string;
  arg_default : default_value;
  arg_dest : string;
  arg_help : string
}.

Definition wd_argument : argument :=
  {| arg_flag := "--wd"; arg_default := DFloat "0.0";
     arg_dest := "weight_decay"; arg_help := "weight decay" |}.

(** Python's [a % b] on integers: floored, and an error when [b] is zero. *)
Definition py_mod (a b : Z) : result Z :=
  if decide (b = 0%Z) then Raise ZeroDivisionError else Ok (a `mod` b)%Z.

Section ParseArgs.
(** The argument parser is a collaborator: what it holds and how it reads
    the command line are not this file's business. *)
Variable ArgumentParser : Type.
Variable add_required_args :
  ArgumentParser → list (string * default_value) → ArgumentParser.
Variable add_argument : ArgumentParser → argument → ArgumentParser.
Variable parse_args : ArgumentParser → result Namespace.

Definition _parse_args (parser : ArgumentParser) : result Namespace :=
  let parser := add_required_args parser required_args in
  let parser := add_argument parser wd_argument in
  match parse_args parser with
  | Raise e => Raise e
  | Ok args =>
      match py_mod (loglikelihood_every args) (test_log_every args) with
      | Raise e => Raise e
      | Ok r => if decide (r = 0%Z) then Ok args else Raise AssertionError
      end
  end.
End ParseArgs.

(** [str(z)] for an integer. *)
Definition str (z : Z) : string := pretty z.

Definition _make_run_description (args : Namespace) : string :=
  let s := "" in
  let s := s +:+ ("seed" +:+ str (seed args)) in
  if decide (0 < String.length (additional_descr args))
  then s +:+ ("," +:+ additional_descr args)
  else s.

(** [os.path.join(a, b)] (POSIX). *)
Fixpoint ends_with_sep (s : string) : bool :=
  match s with
  | EmptyString => false
  | String c EmptyString => bool_decide (c = "/"%char)
  | String _ s' => ends_with_sep s'
  end.

Definition os_path_join (a b : string) : string :=
  if String.prefix "/" b then b
  else if bool_decide (a = "") || ends_with_sep a then a +:+ b
  else a +:+ ("/" +:+ b).

(** Whether the character [c] occurs in [s]. *)
Fixpoint occurs (c : ascii) (s : string) : bool :=
  match s with
  | EmptyString => false
  | String a s' => bool_decide (a = c) || occurs c s'
  end.

(** ** The experiment *)

Section Experiment.
Context {R : Type} `{!TorchOps R}.

#[local] Abbreviation Dict := (gmap string (Tensor R)).

(** The model collaborator.  [MS] is everything its methods read or change
    (parameters, step counter, generator state): calling the model
    ([self.model(x)]) and [sample_prior] may fail and may move [MS];
    [global_step] reads the counter. *)
Class Model (MS : Type) : Type := {
  model_call : Tensor R → MS → result Dict * MS;
  sample_prior : nat → MS → result (Tensor R) * MS;
  global_step : MS → Z
}.

(** [boilr.viz.img_grid_pad_value]: picks the padding value of a grid from
    the images. *)
Class Viz (Pad : Type) : Type := {
  img_grid_pad_value : Tensor R → Pad
}.

Context {MS Pad : Type} `{!Model MS} `{!Viz Pad}.

(** One call of [torchvision.utils.save_image]. *)
Record SavedImage : Type := mkSavedImage {
  saved_tensor : Tensor R;
  saved_fname : string;
  saved_nrow : nat;
  saved_pad_value : Pad
}.

(** What the methods can read and change: the model, and the image files
    written so far (oldest first). *)
Record World : Type := mkWorld {
  model_state : MS;
  image_files : list SavedImage
}.

Definition M (A : Type) : Type := World → result A * World.

#[local] Instance M_ret : MRet M := λ A a w, (Ok a, w).
#[local] Instance M_bind : MBind M := λ A B f m w,
  match m w with
  | (Ok a, w') => f a w'
  | (Raise e, w') => (Raise e, w')
  end.

Definition raise {A} (e : exn) : M A := λ w, (Raise e, w).
Definition lift {A} (r : result A) : M A := λ w, (r, w).

(** [self.model(x)] *)
Definition call_model (x : Tensor R) : M Dict := λ w,
  let (r, ms) := model_call x (model_state w) in
  (r, {| model_state := ms; image_files := image_files w |}).

(** [self.model.sample_prior(k)] *)
Definition call_sample_prior (k : nat) : M (Tensor R) := λ w,
  let (r, ms) := sample_prior k (model_state w) in
  (r, {| model_state := ms; image_files := image_files w |}).

(** [self.model.global_step] *)
Definition read_global_step : M Z := λ w, (Ok (global_step (model_state w)), w).

(** [save_image(t, fname, nrow=n, pad_value=pad)]: one more file. *)
Definition save_image (t : Tensor R) (fname : string) (nrow : nat) (pad : Pad)
  : M unit := λ w,
  (Ok (),
   {| model_state := model_state w;
      image_files := image_files w ++ [mkSavedImage t fname nrow pad] |}).

(** [next(iter(loader))] *)
Definition next_iter {A} (loader : list A) : M A :=
  match loader with
  | [] => raise StopIteration
  | batch :: _ => mret batch
  end.

Record DataLoaders : Type := mkDataLoaders {
  train : list (Tensor R * Tensor R);
  test : list (Tensor R * Tensor R)
}.

Record MnistExperiment : Type := mkMnistExperiment {
  args : Namespace;
  dataloaders : DataLoaders
}.

Definition forward_pass (self : MnistExperiment) (x : Tensor R)
    (y : option (Tensor R)) : M Dict :=
  let x := to_device x in
  out ← call_model x;
  elbo_sep ← lift (getitem out "elbo");
  let elbo := tmean elbo_sep in
  let loss := tneg elbo in
  out_sample ← lift (getitem out "sample");
  out_mean ← lift (getitem out "mean");
  nll ← lift (getitem out "nll");
  kl ← lift (getitem out "kl");
  let out : Dict :=
    <["elbo/kl" := tmean kl]>
    (<["elbo/recons" := tmean nll]>
    (<["elbo/elbo" := elbo]>
    (<["elbo_sep" := elbo_sep]>
    (<["loss" := loss]>
    (<["out_mean" := out_mean]>
    (<["out_sample" := out_sample]> ∅)))))) in
  mret out.

Definition undersized_msg (n_img b : nat) : string :=
  pretty n_img +:+ (" data points required, but given batch has size "
  +:+ (pretty b +:+ ". Please use a larger batch.")).

Definition save_input_and_recons (self : MnistExperiment) (x : Tensor R)
    (fname : string) (n : nat) : M unit :=
  let n_img := n ^ 2 / 2 in
  b ← lift (shape0 x);
  if decide (b < n_img) then raise (RuntimeError (undersized_msg n_img b))
  else
    let x := to_device x in
    outputs ← forward_pass self x None;
    x ← lift (slice_to x n_img);
    out_sample ← lift (getitem outputs "out_sample");
    recons ← lift (slice_to out_sample n_img);
    imgs ← lift (stack (cpu x) (cpu recons));
    imgs ← lift (permute_1_0_2_3_4 imgs);
    c ← lift (size x 1);
    h ← lift (size x 2);
    w ← lift (size x 3);
    imgs ← lift (reshape imgs [n ^ 2; c; h; w]);
    let pad := img_grid_pad_value imgs in
    save_image imgs fname n pad.

Definition additional_testing (self : MnistExperiment) (img_folder : string)
  : M unit :=
  step ← read_global_step;
  if negb (dry_run (args self)) then
    let n := 8 in
    sample ← call_sample_prior (n ^ 2);
    let fname := os_path_join img_folder ("sample_" +:+ (str step +:+ ".png")) in
    let pad := img_grid_pad_value sample in
    save_image sample fname n pad;;
    '(x, _) ← next_iter (test (dataloaders self));
    let fname :=
      os_path_join img_folder ("reconstruction_" +:+ (str step +:+ ".png")) in
    save_input_and_recons self x fname n
  else mret ().
End Experiment.

(** ** A small concrete instance

    Rational entries with the exact mean, and a model whose reconstruction
    is the input brightened by 100: every example's reconstruction term is
    the sum of its entries, its KL term is 1, and its ELBO is minus their
    sum.  Prior samples are black 1x1x1 images, and the model counts how
    many it drew. *)

Module Toy.

#[global] Instance ops : TorchOps Q := {|
  mean l := Qred (foldr Qplus 0%Q l / inject_Z (Z.of_nat (length l)));
  neg := Qopp
|}.

Record state : Type := mkState { step : Z; draws : nat }.

Definition example_sums (x : Tensor Q) : list Q :=
  match shape x with
  | [] => []
  | b :: rest =>
      (λ k, Qred (foldr Qplus 0%Q (chunk (numel_of rest) k (data x))))
        <$> seq 0 b
  end.

Definition per_example (x : Tensor Q) (f : Q → Q) : Tensor Q :=
  {| shape := take 1 (shape x); data := f <$> example_sums x |}.

Definition output (x : Tensor Q) : gmap string (Tensor Q) :=
  <["kl" := per_example x (λ _, 1%Q)]>
  (<["nll" := per_example x id]>
  (<["elbo" := per_example x (λ s, Qred (- (s + 1)))%Q]>
  (<["mean" := x]>
  (<["sample" := {| shape := shape x; data := Qplus 100 <$> data x |}]> ∅)))).

#[global] Instance model : Model (R := Q) state := {|
  model_call x ms := (Ok (output x), ms);
  sample_prior k ms :=
    (Ok {| shape := [k; 1; 1; 1]; data := replicate k 0%Q |},
     {| step := step ms; draws := draws ms + k |});
  global_step := step
|}.

#[global] Instance viz : Viz (R := Q) Q := {| img_grid_pad_value _ := 1%Q |}.

(** [b] images of 1x1x1, image [k] holding the entry [k]. *)
Definition batch (b : nat) : Tensor Q :=
  {| shape := [b; 1; 1; 1]; data := (λ k, inject_Z (Z.of_nat k)) <$> seq 0 b |}.

Definition labels (b : nat) : Tensor Q :=
  {| shape := [b]; data := replicate b 0%Q |}.

Definition options (dry : bool) : Namespace :=
  {| batch_size := 64; test_batch_size := 1000; seed := 54321;
     train_log_every := 1000; test_log_every := 1000;
     checkpoint_every := 10000; resume := "";
     loglikelihood_every := 50000; loglikelihood_samples := 100;
     dry_run := dry; additional_descr := "" |}.

(** An experiment whose test loader yields batches of [b] examples. *)
Definition experiment (dry : bool) (b : nat) : MnistExperiment :=
  {| args := options dry;
     dataloaders := {| train := []; test := [(batch b, labels b)] |} |}.

Definition world0 : World (R := Q) (MS := state) (Pad := Q) :=
  {| model_state := {| step := 7; draws := 0 |}; image_files := [] |}.


(** A parser that already holds the options the command line spells out. *)
Definition parse_as (ns : Namespace) : result Namespace := Ok ns.

Definition with_cadence (ll tl : Z) : Namespace :=
  {| batch_size := 64; test_batch_size := 1000; seed := 54321;
     train_log_every := 1000; test_log_every := tl;
     checkpoint_every := 10000; resume := "";
     loglikelihood_every := ll; loglikelihood_samples := 100;
     dry_run := false; additional_descr := "" |}.

Definition toy_parse_args (ns : Namespace) : result Namespace :=
  _parse_args Namespace (λ p _, p) (λ p _, p) parse_as ns.

End Toy.

(** ** A scripted model

    A model whose failures are set in its state: its evaluation can raise,
    its output can lack keys, its prior sampling can raise.  Otherwise it
    behaves as the model above. *)

Module Scripted.

Record state : Type := mkState {
  call_fails : bool;
  prior_fails : bool;
  dropped : list string;
  step : Z
}.

#[global] Instance model : Model (R := Q) state := {|
  model_call x ms :=
    (if call_fails ms then Raise (CollaboratorError "shape mismatch")
     else Ok (foldr delete (Toy.output x) (dropped ms)), ms);
  sample_prior k ms :=
    (if prior_fails ms then Raise (CollaboratorError "out of memory")
     else Ok {| shape := [k; 1; 1; 1]; data := replicate k 0%Q |}, ms);
  global_step := step
|}.

Definition world (cf pf : bool) (dr : list string) (st : Z)
  : World (R := Q) (MS := state) (Pad := Q) :=
  {| model_state := mkState cf pf dr st; image_files := [] |}.

(** An experiment whose test loader is [loader]. *)
Definition experiment (loader : list (Tensor Q * Tensor Q)) : MnistExperiment :=
  {| args := Toy.options false;
     dataloaders := {| train := []; test := loader |} |}.

(** A parser that rejects the command line. *)
Definition reject (ns : Namespace) : result Namespace :=
  Raise (CollaboratorError "unrecognized arguments").

End Scripted.

(** ** A model that reconstructs too few examples

    Its state is the number of examples its [sample] holds: the first
    examples of the input, unchanged. *)

Module Short.

#[global] Instance model : Model (R := Q) nat := {|
  model_call x k :=
    (Ok (<["sample" :=
             {| shape := k :: tail (shape x);
                data := take (k * numel_of (tail (shape x))) (data x) |}]>
           (Toy.output x)), k);
  sample_prior k ms :=
    (Ok {| shape := [k; 1; 1; 1]; data := replicate k 0%Q |}, ms);
  global_step _ := 0%Z
|}.

Definition world (k : nat) : World (R := Q) (MS := nat) (Pad := Q) :=
  {| model_state := k; image_files := [] |}.

End Short.

(** * Properties *)

(** ** Hyperparameter parsing *)

Section ParseArgsFacts.
Variable ArgumentParser : Type.
Variable add_required_args :
  ArgumentParser → list (string * default_value) → ArgumentParser.
Variable add_argument : ArgumentParser → argument → ArgumentParser.
Variable parse_args : ArgumentParser → result Namespace.

#[local] Abbreviation parse := (_parse_args ArgumentParser add_required_args add_argument parse_args).
#[local] Abbreviation configured parser :=
  (add_argument (add_required_args parser required_args) wd_argument).

Lemma classic_divide (b a : Z) : (b | a)%Z ∨ ¬ (b | a)%Z.
Proof.
  destruct (decide (b = 0%Z)) as [->|Hb].
  - destruct (decide (a = 0%Z)) as [->|Ha]; [left; by exists 0%Z|].
    right. intros [k Hk]. lia.
  - destruct (decide (a `mod` b = 0)%Z) as [Hm|Hm].
    + left. by apply Z.mod_divide.
    + right. intros Hd. destruct Hm. by apply Z.mod_divide.
Qed.

Lemma py_mod_zero (a : Z) : py_mod a 0 = Raise ZeroDivisionError.
Proof. reflexivity. Qed.

Lemma py_mod_nonzero (a b : Z) : b ≠ 0%Z → py_mod a b = Ok (a `mod` b)%Z.
Proof. intros Hb. unfold py_mod. by destruct (decide (b = 0%Z)). Qed.

Lemma _parse_args_parsed parser args :
  parse_args (configured parser) = Ok args →
  parse parser =
    match py_mod (loglikelihood_every args) (test_log_every args) with
    | Raise e => Raise e
    | Ok r => if decide (r = 0%Z) then Ok args else Raise AssertionError
    end.
Proof. intros Hp. unfold _parse_args. by rewrite Hp. Qed.

Lemma _parse_args_nonzero parser args :
  parse_args (configured parser) = Ok args →
  test_log_every args ≠ 0%Z →
  ((test_log_every args | loglikelihood_every args)%Z →
     parse parser = Ok args)
  ∧ (¬ (test_log_every args | loglikelihood_every args)%Z →
     parse parser = Raise AssertionError).
Proof.
  intros Hp Hnz. rewrite (_parse_args_parsed _ _ Hp), py_mod_nonzero by done.
  destruct (decide (_ `mod` _ = 0)%Z) as [Hm|Hm]; split; try done.
  - intros Hd. destruct Hd. by apply Z.mod_divide.
  - intros Hd. destruct Hm. by apply Z.mod_divide.
Qed.

(** C10: with [test_log_every = 0] the check itself divides by zero, so
    parsing ends in [ZeroDivisionError], not in the assertion failure,
    whatever [loglikelihood_every] is. *)
Theorem _parse_args_zero_cadence parser args :
  parse_args (configured parser) = Ok args →
  test_log_every args = 0%Z →
  py_mod (loglikelihood_every args) (test_log_every args)
    = Raise ZeroDivisionError
  ∧ parse parser = Raise ZeroDivisionError
  ∧ parse parser ≠ Raise AssertionError.
Proof.
  intros Hp Hz. rewrite (_parse_args_parsed _ _ Hp), Hz, py_mod_zero.
  by repeat split.
Qed.

(** C3, amended: once the command line itself parses, and
    [test_log_every] is not zero, [_parse_args] returns the options exactly
    when [loglikelihood_every] is a multiple of [test_log_every] and fails
    the assertion otherwise; so 100 against 30 fails and 100 against 50
    passes.  With [test_log_every = 0] it fails for every
    [loglikelihood_every]. *)
Theorem _parse_args_multiple parser args :
  parse_args (configured parser) = Ok args →
  (test_log_every args ≠ 0%Z →
     (parse parser = Ok args
        ↔ (test_log_every args | loglikelihood_every args)%Z)
     ∧ (¬ (test_log_every args | loglikelihood_every args)%Z →
        parse parser = Raise AssertionError))
  ∧ (test_log_every args = 0%Z → is_ok (parse parser) = false)
  ∧ (loglikelihood_every args = 100%Z → test_log_every args = 30%Z →
     parse parser = Raise AssertionError)
  ∧ (loglikelihood_every args = 100%Z → test_log_every args = 50%Z →
     parse parser = Ok args).
Proof.
  intros Hp. split; [|split; [|split]].
  - intros Hnz. destruct (_parse_args_nonzero _ _ Hp Hnz) as [Hy Hn].
    split; [split|]; [|exact Hy|exact Hn].
    intros Hok.
    destruct (classic_divide (test_log_every args) (loglikelihood_every args))
      as [Hd|Hd]; [done|]. rewrite (Hn Hd) in Hok. discriminate.
  - intros Hz. by rewrite (_parse_args_parsed _ _ Hp), Hz, py_mod_zero.
  - intros Hl Ht. by rewrite (_parse_args_parsed _ _ Hp), Hl, Ht.
  - intros Hl Ht. by rewrite (_parse_args_parsed _ _ Hp), Hl, Ht.
Qed.
End ParseArgsFacts.

(** C3 as stated fails when both cadences are zero: 0 is a multiple of 0,
    yet parsing ends in a division by zero. *)
Lemma _parse_args_multiple_counterexample :
  (test_log_every (Toy.with_cadence 0 0)
     | loglikelihood_every (Toy.with_cadence 0 0))%Z
  ∧ Toy.toy_parse_args (Toy.with_cadence 0 0) = Raise ZeroDivisionError.
Proof. split; [by exists 0%Z | reflexivity]. Qed.

Lemma _parse_args_multiple_witness :
  Toy.toy_parse_args (Toy.with_cadence 100 30) = Raise AssertionError
  ∧ Toy.toy_parse_args (Toy.with_cadence 100 50) = Ok (Toy.with_cadence 100 50).
Proof.
  split.
  - apply (_parse_args_multiple Namespace (λ p _, p) (λ p _, p) Toy.parse_as
             (Toy.with_cadence 100 30) (Toy.with_cadence 100 30) eq_refl);
      reflexivity.
  - apply (_parse_args_multiple Namespace (λ p _, p) (λ p _, p) Toy.parse_as
             (Toy.with_cadence 100 50) (Toy.with_cadence 100 50) eq_refl);
      reflexivity.
Defined.

Lemma _parse_args_zero_cadence_witness :
  Toy.toy_parse_args (Toy.with_cadence 50000 0) = Raise ZeroDivisionError.
Proof.
  apply (_parse_args_zero_cadence Namespace (λ p _, p) (λ p _, p) Toy.parse_as
           (Toy.with_cadence 50000 0) (Toy.with_cadence 50000 0) eq_refl eq_refl).
Defined.

(** ** The objective evaluator *)

Section ForwardPassFacts.
Context {R : Type} `{!TorchOps R} {MS Pad : Type} `{!Model (R := R) MS}
  `{!Viz (R := R) Pad}.
Implicit Types (x e s m nl k : Tensor R) (out r : gmap string (Tensor R))
  (w : World (R := R) (MS := MS) (Pad := Pad)) (self : MnistExperiment (R := R)).

Lemma forward_pass_inv self x y w r w' :
  forward_pass self x y w = (Ok r, w') →
  ∃ out e s m nl k,
    model_call x (model_state w) = (Ok out, model_state w')
    ∧ image_files w' = image_files w
    ∧ out !! "elbo" = Some e ∧ out !! "sample" = Some s
    ∧ out !! "mean" = Some m ∧ out !! "nll" = Some nl ∧ out !! "kl" = Some k
    ∧ r = <["elbo/kl" := tmean k]> (<["elbo/recons" := tmean nl]>
          (<["elbo/elbo" := tmean e]> (<["elbo_sep" := e]>
          (<["loss" := tneg (tmean e)]> (<["out_mean" := m]>
          (<["out_sample" := s]> ∅)))))).
Proof.
  unfold forward_pass, call_model, to_device, mbind, M_bind, lift, getitem, mret,
    M_ret.
  destruct (model_call x (model_state w)) as [[out|err] ms]; [|done].
  destruct (out !! "elbo") as [e|] eqn:He; [|done].
  destruct (out !! "sample") as [s|] eqn:Hs; [|done].
  destruct (out !! "mean") as [m|] eqn:Hm; [|done].
  destruct (out !! "nll") as [nl|] eqn:Hnl; [|done].
  destruct (out !! "kl") as [k|] eqn:Hk; [|done].
  intros [= <- <-]. by exists out, e, s, m, nl, k.
Qed.

Lemma forward_pass_run self x y w out ms' e s m nl k :
  model_call x (model_state w) = (Ok out, ms') →
  out !! "elbo" = Some e → out !! "sample" = Some s →
  out !! "mean" = Some m → out !! "nll" = Some nl → out !! "kl" = Some k →
  forward_pass self x y w =
    (Ok (<["elbo/kl" := tmean k]> (<["elbo/recons" := tmean nl]>
         (<["elbo/elbo" := tmean e]> (<["elbo_sep" := e]>
         (<["loss" := tneg (tmean e)]> (<["out_mean" := m]>
         (<["out_sample" := s]> ∅))))))),
     {| model_state := ms'; image_files := image_files w |}).
Proof.
  intros Hc He Hs Hm Hnl Hk.
  unfold forward_pass, call_model, to_device, mbind, M_bind, lift, getitem, mret,
    M_ret.
  by rewrite Hc, He, Hs, Hm, Hnl, Hk.
Qed.

Lemma tneg_scalar (v : R) : tneg (scalar v) = scalar (neg v).
Proof. reflexivity. Qed.

(** C1: when the model output holds the per-example vectors [elbo], [nll]
    and [kl], the record [forward_pass] returns has [loss] the negated mean
    of [elbo], [elbo/elbo] the mean of [elbo], [elbo/recons] the mean of
    [nll] and [elbo/kl] the mean of [kl]; negating [loss] gives back
    [elbo/elbo] when unary minus undoes itself.  The record is returned
    exactly when the output also holds [sample] and [mean]. *)
Theorem forward_pass_metrics self x y w out ms' e nl k :
  model_call x (model_state w) = (Ok out, ms') →
  out !! "elbo" = Some e → out !! "nll" = Some nl → out !! "kl" = Some k →
  ((∃ r w', forward_pass self x y w = (Ok r, w'))
     ↔ is_Some (out !! "sample") ∧ is_Some (out !! "mean"))
  ∧ ∀ r w', forward_pass self x y w = (Ok r, w') →
      r !! "loss" = Some (scalar (neg (mean (data e))))
      ∧ r !! "elbo/elbo" = Some (scalar (mean (data e)))
      ∧ r !! "elbo/recons" = Some (scalar (mean (data nl)))
      ∧ r !! "elbo/kl" = Some (scalar (mean (data k)))
      ∧ ((∀ v : R, neg (neg v) = v) →
         r !! "elbo/elbo" = Some (tneg (scalar (neg (mean (data e)))))).
Proof.
  intros Hc He Hnl Hk. split.
  - split.
    + intros (r & w' & Hr).
      destruct (forward_pass_inv _ _ _ _ _ _ Hr)
        as (out' & _ & s & m & _ & _ & Hc' & _ & _ & Hs & Hm & _).
      rewrite Hc in Hc'. injection Hc' as <- _. by rewrite Hs, Hm.
    + intros [[s Hs] [m Hm]]. eexists _, _.
      by apply (forward_pass_run self x y w out ms' e s m nl k).
  - intros r w' Hr.
    destruct (forward_pass_inv _ _ _ _ _ _ Hr)
      as (out' & e' & s & m & nl' & k' & Hc' & _ & He' & _ & _ & Hnl' & Hk' & ->).
    rewrite Hc in Hc'. injection Hc' as <- _.
    rewrite He in He'. rewrite Hnl in Hnl'. rewrite Hk in Hk'.
    injection He' as <-. injection Hnl' as <-. injection Hk' as <-.
    repeat split; try reflexivity.
    intros Hinv. rewrite tneg_scalar, Hinv. reflexivity.
Qed.

(** C4: for a batch of [b >= 1] examples and a model output whose [elbo]
    has one value per example, [forward_pass] returns a record whose
    [elbo_sep] is that very vector, with exactly [b] entries. *)
Theorem forward_pass_elbo_sep self x y w out ms' b rest e s m nl k :
  shape x = (b :: rest)%list → (1 ≤ b)%nat →
  model_call x (model_state w) = (Ok out, ms') →
  out !! "elbo" = Some e → out !! "sample" = Some s →
  out !! "mean" = Some m → out !! "nll" = Some nl → out !! "kl" = Some k →
  shape e = [b] → wf e →
  ∃ r w', forward_pass self x y w = (Ok r, w')
    ∧ r !! "elbo_sep" = Some e
    ∧ ∀ t, r !! "elbo_sep" = Some t → shape t = [b] ∧ length (data t) = b.
Proof.
  intros Hx Hb Hc He Hs Hm Hnl Hk Hsh Hwf. eexists _, _. split.
  { by apply (forward_pass_run self x y w out ms' e s m nl k). }
  split; [reflexivity|].
  intros t Ht. assert (t = e) as -> by (by injection Ht).
  split; [done|]. unfold wf in Hwf. rewrite Hwf, Hsh. simpl. lia.
Qed.

Lemma forward_pass_frame self x y w :
  image_files (snd (forward_pass self x y w)) = image_files w
  ∧ model_state (snd (forward_pass self x y w))
    = snd (model_call x (model_state w)).
Proof.
  unfold forward_pass, call_model, to_device, mbind, M_bind, lift, getitem,
    mret, M_ret.
  destruct (model_call x (model_state w)) as [[out|err] ms]; [|done].
  destruct (out !! "elbo"); [|done]. destruct (out !! "sample"); [|done].
  destruct (out !! "mean"); [|done]. destruct (out !! "nll"); [|done].
  by destruct (out !! "kl").
Qed.

End ForwardPassFacts.

(** ** Blocks of a row-major list *)

Section ChunkFacts.
Context {R : Type}.
Implicit Types (l : list R) (d i k : nat).

Lemma length_chunk d i l : (i * d + d ≤ length l)%nat → length (chunk d i l) = d.
Proof. intros Hl. unfold chunk. rewrite length_take, length_drop. lia. Qed.




(** Concatenating [n] blocks of equal length [m]: block [i] comes back. *)
Lemma chunk_flat_map (f : nat → list R) m i a n :
  (∀ j, (j < n)%nat → length (f (a + j)%nat) = m) → (i < n)%nat →
  chunk m i (flat_map f (seq a n)) = f (a + i)%nat.
Proof.
  revert i a. induction n as [|n IH]; intros i a Hlen Hi; [lia|].
  simpl. destruct i as [|i].
  - unfold chunk. simpl. rewrite Nat.add_0_r. apply take_app_length'.
    rewrite <- (Hlen 0%nat) by lia. by rewrite Nat.add_0_r.
  - assert (length (f a) = m) as Hfa.
    { rewrite <- (Hlen 0%nat) by lia. by rewrite Nat.add_0_r. }
    replace (a + S i)%nat with (S a + i)%nat by lia.
    rewrite <- (IH i (S a)).
    + unfold chunk. f_equal.
      replace (S i * m)%nat with (length (f a) + i * m)%nat by (rewrite Hfa; lia).
      by rewrite drop_app_add.
    + intros j Hj. replace (S a + j)%nat with (a + S j)%nat by lia.
      apply Hlen. lia.
    + lia.
Qed.


Lemma chunk_chunk d i j k l :
  i < k → chunk d i (chunk (k * d) j l) = chunk d (j * k + i) l.
Proof.
  intros Hi. unfold chunk.
  replace (k * d) with (i * d + (k * d - i * d)) at 1 by nia.
  rewrite <- take_drop_commute, take_take, drop_drop.
  rewrite Nat.min_l by nia. f_equal. f_equal. lia.
Qed.
End ChunkFacts.

(** ** The tensor operations *)

Section TensorFacts.
Context {R : Type}.
Implicit Types (t P : Tensor R).

Lemma numel_of_cons (a : nat) (rest : list nat) :
  numel_of (a :: rest) = a * numel_of rest.
Proof. reflexivity. Qed.

(** Entry [i][j] of [t.permute(1, 0, 2, 3, 4)] is entry [j][i] of [t]. *)
Lemma permute_select t P (a b c h wd i j : nat) :
  shape t = [a; b; c; h; wd] → wf t → permute_1_0_2_3_4 t = Ok P →
  i < b → j < a →
  (select P i ≫= λ r, select r j) = (select t j ≫= λ r, select r i).
Proof.
  intros Ht Hwf HP Hi Hj. unfold permute_1_0_2_3_4 in HP. rewrite Ht in HP.
  injection HP as <-. unfold wf in Hwf. rewrite Ht in Hwf.
  set (d := numel_of [c; h; wd]) in *.
  assert (length (data t) = a * (b * d)) as Hlen by (by rewrite Hwf).
  unfold select. cbn [shape data]. rewrite Ht.
  destruct (decide (i < b)) as [_|?]; [|done].
  destruct (decide (j < a)) as [_|?]; [|done].
  cbn [mbind option_bind shape data].
  destruct (decide (j < a)) as [_|?]; [|done].
  destruct (decide (i < b)) as [_|?]; [|done].
  do 2 f_equal.
  change (numel_of [a; c; h; wd]) with (a * d).
  change (numel_of [b; c; h; wd]) with (b * d).
  rewrite (chunk_chunk d i j b) by done.
  assert (Hrow : ∀ i', i' < b → ∀ j', j' < a →
    length (chunk d (j' * b + i') (data t)) = d).
  { intros i' Hi' j' Hj'. apply length_chunk. rewrite Hlen.
    assert (j' * b + i' + 1 ≤ a * b) as Hle by nia.
    apply (Nat.mul_le_mono_r _ _ d) in Hle. lia. }
  assert (Hcol : ∀ a', a' ≤ a → ∀ i', i' < b →
    length (flat_map (λ j', chunk d (j' * b + i') (data t)) (seq 0 a'))
    = a' * d).
  { intros a' Ha' i' Hi'. induction a' as [|a' IH]; [done|].
    rewrite seq_S, flat_map_app, length_app, IH by lia.
    simpl. rewrite app_nil_r, Hrow by lia. lia. }
  rewrite (chunk_flat_map _ (a * d) i 0 b); [| |done].
  - simpl (0 + i). rewrite (chunk_flat_map _ d j 0 a); [done| |done].
    intros j' Hj'. by apply Hrow.
  - intros i' Hi'. by apply Hcol.
Qed.

Example permute_2_3 :
  permute_1_0_2_3_4 {| shape := [2; 3; 1; 1; 1]; data := [0; 1; 2; 3; 4; 5] |}
  = Ok {| shape := [3; 2; 1; 1; 1]; data := [0; 3; 1; 4; 2; 5] |}.
Proof. reflexivity. Qed.

Example slice_to_2 :
  slice_to {| shape := [3; 2]; data := [0; 1; 2; 3; 4; 5] |} 2
  = Ok {| shape := [2; 2]; data := [0; 1; 2; 3] |}.
Proof. reflexivity. Qed.

Example slice_to_beyond :
  slice_to {| shape := [3; 2]; data := [0; 1; 2; 3; 4; 5] |} 7
  = Ok {| shape := [3; 2]; data := [0; 1; 2; 3; 4; 5] |}.
Proof. reflexivity. Qed.

Example reshape_mismatch :
  reshape {| shape := [4; 2; 1; 1; 1]; data := [0; 1; 2; 3; 4; 5; 6; 7] |}
    [9; 1; 1; 1]
  = Raise (TorchRuntimeError "reshape").
Proof. reflexivity. Qed.
End TensorFacts.

(** ** Python's operators and library calls *)

Example py_mod_floored :
  py_mod (-7) 3 = Ok 2%Z ∧ py_mod 7 (-3) = Ok (-2)%Z ∧ py_mod 100 30 = Ok 10%Z.
Proof. repeat split. Qed.

Example str_decimal : str 54321 = "54321" ∧ str 0 = "0" ∧ str (-5) = "-5".
Proof. repeat split. Qed.

Example os_path_join_examples :
  os_path_join "imgs" "sample_7.png" = "imgs/sample_7.png"
  ∧ os_path_join "imgs/" "sample_7.png" = "imgs/sample_7.png"
  ∧ os_path_join "" "sample_7.png" = "sample_7.png"
  ∧ os_path_join "imgs" "/tmp/x.png" = "/tmp/x.png".
Proof. repeat split. Qed.

Section InterleaveFacts.
Context {R : Type}.
Implicit Types (X S : list R) (d i k : nat).

End InterleaveFacts.

(** ** The diagnostic image sampler *)

Section DiagnosticFacts.
Context {R : Type} `{!TorchOps R} {MS Pad : Type} `{!Model (R := R) MS}
  `{!Viz (R := R) Pad}.
Implicit Types (x e s m nl k : Tensor R) (out r : gmap string (Tensor R))
  (w : World (R := R) (MS := MS) (Pad := Pad)) (self : MnistExperiment (R := R)).
#[local] Existing Instances M_ret M_bind.

Lemma bind_run {A B} (c : M (R := R) (MS := MS) (Pad := Pad) A) (f : A → M B) w :
  (c ≫= f) w =
    match c w with
    | (Ok a, w') => f a w'
    | (Raise e, w') => (Raise e, w')
    end.
Proof. reflexivity. Qed.

Lemma bind_lift {A B} (v : result A)
    (f : A → M (R := R) (MS := MS) (Pad := Pad) B) w :
  (lift v ≫= f) w = match v with Ok a => f a w | Raise e => (Raise e, w) end.
Proof. by destruct v. Qed.

Lemma bind_lift_ok {A B} (v : result A) (a : A)
    (f : A → M (R := R) (MS := MS) (Pad := Pad) B) w :
  v = Ok a → (lift v ≫= f) w = f a w.
Proof. by intros ->. Qed.


Ltac step H := erewrite bind_lift_ok by exact H; cbv beta.

Lemma save_input_and_recons_undersized self x fname n w b :
  shape0 x = Ok b → b < n ^ 2 / 2 →
  save_input_and_recons self x fname n w
  = (Raise (RuntimeError (undersized_msg (n ^ 2 / 2) b)), w).
Proof.
  intros Hb Hlt. unfold save_input_and_recons. rewrite bind_lift, Hb.
  by destruct (decide (b < n ^ 2 / 2)).
Qed.






Ltac lift_step :=
  rewrite bind_lift;
  match goal with
  | |- context [match ?v with Ok _ => _ | Raise _ => _ end] => destruct v
  end; [cbv beta | intros [= <- <-]; right; done].

(** Whatever the batch and the model, [save_input_and_recons] either
    returns after writing one file, named [fname], or raises having
    written none. *)
Lemma save_input_and_recons_frame self x fname n w res w' :
  save_input_and_recons self x fname n w = (res, w') →
  (res = Ok ()
   ∧ ∃ g pad, image_files w' = image_files w ++ [mkSavedImage g fname n pad])
  ∨ (is_ok res = false ∧ image_files w' = image_files w).
Proof.
  unfold save_input_and_recons. lift_step.
  destruct (decide _); [intros [= <- <-]; right; done|].
  rewrite bind_run.
  pose proof (forward_pass_frame self (to_device x) None w) as [Hfr _].
  destruct (forward_pass self (to_device x) None w) as [[outputs|err] w1];
    simpl in Hfr; [|intros [= <- <-]; right; done].
  rewrite <- Hfr. clear Hfr.
  do 9 lift_step. unfold save_image.
  intros [= <- <-]. left. split; [done|]. by eexists _, _.
Qed.


(** C8: in dry-run mode [additional_testing] returns without writing any
    image file (and without touching the model), whatever the step and
    whatever the test loader holds. *)
Theorem additional_testing_dry_run self img_folder w :
  dry_run (args self) = true →
  additional_testing self img_folder w = (Ok (), w)
  ∧ image_files (snd (additional_testing self img_folder w)) = image_files w.
Proof.
  intros Hdry. unfold additional_testing.
  rewrite bind_run. unfold read_global_step. rewrite Hdry. done.
Qed.

End DiagnosticFacts.

(** ** Run naming *)

(** C6: the run description is a function of the seed and the additional
    description alone: ["seed<seed>"], followed by [",<description>"] only
    when the description is not empty; so seed 54321 gives ["seed54321"]
    with an empty description and ["seed54321,foo"] with ["foo"]. *)
Theorem _make_run_description_spec :
  (∀ a, seed a = 54321%Z → additional_descr a = "" →
     _make_run_description a = "seed54321")
  ∧ (∀ a, seed a = 54321%Z → additional_descr a = "foo" →
     _make_run_description a = "seed54321,foo")
  ∧ (∀ a, additional_descr a = "" →
     _make_run_description a = "seed" +:+ str (seed a))
  ∧ (∀ a, additional_descr a ≠ "" →
     _make_run_description a
     = ("seed" +:+ str (seed a)) +:+ ("," +:+ additional_descr a))
  ∧ (∀ a a', seed a = seed a' → additional_descr a = additional_descr a' →
     _make_run_description a = _make_run_description a').
Proof.
  repeat split.
  - intros a Hs Hd. unfold _make_run_description. by rewrite Hs, Hd.
  - intros a Hs Hd. unfold _make_run_description. by rewrite Hs, Hd.
  - intros a Hd. unfold _make_run_description. by rewrite Hd.
  - intros a Hd. unfold _make_run_description.
    destruct (additional_descr a) as [|ch d]; [done|].
    destruct (decide _) as [_|Hn]; [done|]. simpl in Hn. lia.
  - intros a a' Hs Hd. unfold _make_run_description. by rewrite Hs, Hd.
Qed.

Lemma _make_run_description_witness :
  _make_run_description (Toy.options false) = "seed54321"
  ∧ _make_run_description (Toy.options true)
    = _make_run_description (Toy.options false).
Proof.
  destruct _make_run_description_spec as (H1 & _ & _ & _ & H5).
  split.
  - apply (H1 (Toy.options false)); reflexivity.
  - apply (H5 (Toy.options true) (Toy.options false)); reflexivity.
Defined.

(** ** The properties at the concrete instance *)

Lemma forward_pass_metrics_witness :
  ∃ r w', forward_pass (Toy.experiment false 3) (Toy.batch 3) None Toy.world0
          = (Ok r, w')
    ∧ r !! "loss" = Some (scalar 2%Q)
    ∧ r !! "elbo/elbo" = Some (scalar (-2)%Q)
    ∧ r !! "elbo/recons" = Some (scalar 1%Q)
    ∧ r !! "elbo/kl" = Some (scalar 1%Q).
Proof.
  destruct (forward_pass_metrics (Toy.experiment false 3) (Toy.batch 3) None
              Toy.world0 (Toy.output (Toy.batch 3)) (model_state Toy.world0)
              (Toy.per_example (Toy.batch 3) (λ s, Qred (- (s + 1)))%Q)
              (Toy.per_example (Toy.batch 3) id)
              (Toy.per_example (Toy.batch 3) (λ _, 1%Q))
              ) as [Hex Hfields]; [reflexivity..|].
  destruct (proj2 Hex) as (r & w' & Hr).
  { split; eexists; reflexivity. }
  exists r, w'. destruct (Hfields r w' Hr) as (Hl & He & Hn & Hk & _).
  repeat split; assumption.
Defined.

Lemma forward_pass_elbo_sep_witness :
  ∃ r w' t, forward_pass (Toy.experiment false 3) (Toy.batch 3) None Toy.world0
            = (Ok r, w')
    ∧ r !! "elbo_sep" = Some t ∧ length (data t) = 3.
Proof.
  destruct (forward_pass_elbo_sep (Toy.experiment false 3) (Toy.batch 3) None
              Toy.world0 (Toy.output (Toy.batch 3)) (model_state Toy.world0)
              3 [1; 1; 1]
              (Toy.per_example (Toy.batch 3) (λ s, Qred (- (s + 1)))%Q)
              {| shape := [3; 1; 1; 1];
                 data := Qplus 100 <$> data (Toy.batch 3) |}
              (Toy.batch 3)
              (Toy.per_example (Toy.batch 3) id)
              (Toy.per_example (Toy.batch 3) (λ _, 1%Q))
              )
    as (r & w' & Hr & Hsep & Hlen); [reflexivity | lia | reflexivity..|].
  exists r, w', (Toy.per_example (Toy.batch 3) (λ s, Qred (- (s + 1)))%Q).
  split; [assumption|]. split; [assumption|]. apply (Hlen _ Hsep).
Defined.


Lemma additional_testing_dry_run_witness :
  image_files (snd (additional_testing (Toy.experiment true 31) "imgs"
                      Toy.world0)) = [].
Proof.
  apply (additional_testing_dry_run (Toy.experiment true 31) "imgs" Toy.world0).
  reflexivity.
Defined.






(** * Further properties of the code *)

(** ** Hyperparameter parsing: what a returned namespace guarantees *)

Section ParseArgsMore.
Variable ArgumentParser : Type.
Variable add_required_args :
  ArgumentParser → list (string * default_value) → ArgumentParser.
Variable add_argument : ArgumentParser → argument → ArgumentParser.
Variable parse_args : ArgumentParser → result Namespace.

#[local] Abbreviation configured' parser :=
  (add_argument (add_required_args parser required_args) wd_argument).

(** X1: every namespace [_parse_args] returns is the one the parser
    produced, unchanged, and it has a non-zero [test_log_every] that
    divides [loglikelihood_every]; so code that later computes a step
    modulo [test_log_every] cannot divide by zero. *)
Theorem _parse_args_returns_checked parser args :
  _parse_args ArgumentParser add_required_args add_argument parse_args parser = Ok args →
  parse_args (configured' parser) = Ok args
  ∧ test_log_every args ≠ 0%Z
  ∧ (loglikelihood_every args `mod` test_log_every args = 0)%Z
  ∧ (test_log_every args | loglikelihood_every args)%Z.
Proof.
  unfold _parse_args.
  destruct (parse_args (configured' parser)) as [a|e]; [|done].
  unfold py_mod. destruct (decide (test_log_every a = 0%Z)) as [|Hnz]; [done|].
  destruct (decide (_ = 0%Z)) as [Hm|]; [|done].
  intros [= ->]. repeat split; try done. by apply Z.mod_divide.
Qed.

(** X2: [_parse_args] raises nothing of its own besides the two check
    failures: an error is the parser's own error, passed on unchanged, or
    [ZeroDivisionError] (exactly when the parsed [test_log_every] is 0),
    or [AssertionError] (exactly when it is non-zero and does not divide
    [loglikelihood_every]). *)
Theorem _parse_args_failures parser err :
  _parse_args ArgumentParser add_required_args add_argument parse_args parser
    = Raise err ↔
    parse_args (configured' parser) = Raise err
    ∨ ∃ args, parse_args (configured' parser) = Ok args
        ∧ ((test_log_every args = 0%Z ∧ err = ZeroDivisionError)
           ∨ (test_log_every args ≠ 0%Z
              ∧ (loglikelihood_every args `mod` test_log_every args ≠ 0)%Z
              ∧ err = AssertionError)).
Proof.
  unfold _parse_args.
  destruct (parse_args (configured' parser)) as [a|e].
  - unfold py_mod.
    destruct (decide (test_log_every a = 0%Z)) as [Hz|Hnz].
    + split.
      * intros [= <-]. right. exists a. split; [done|]. by left.
      * intros [?|(a' & [= <-] & [[_ ->]|(? & _)])]; done.
    + destruct (decide (_ = 0%Z)) as [Hm|Hm].
      * split; [done|].
        intros [?|(a' & [= <-] & [[? _]|(_ & ? & _)])]; done.
      * split.
        -- intros [= <-]. right. exists a. split; [done|]. by right.
        -- intros [?|(a' & [= <-] & [[? _]|(_ & _ & ->)])]; done.
  - split.
    + intros [= ->]. by left.
    + intros [[= ->]|(a' & ? & _)]; done.
Qed.
End ParseArgsMore.

Lemma _parse_args_returns_checked_witness :
  test_log_every (Toy.with_cadence 100 (-50)) ≠ 0%Z
  ∧ (test_log_every (Toy.with_cadence 100 (-50))
       | loglikelihood_every (Toy.with_cadence 100 (-50)))%Z.
Proof.
  destruct (_parse_args_returns_checked Namespace (λ p _, p) (λ p _, p)
              Toy.parse_as (Toy.with_cadence 100 (-50))
              (Toy.with_cadence 100 (-50))) as (_ & Hnz & _ & Hd);
    [reflexivity|]. split; assumption.
Defined.

Lemma _parse_args_failures_witness :
  _parse_args Namespace (λ p _, p) (λ p _, p) Scripted.reject
    (Toy.with_cadence 100 50)
  = Raise (CollaboratorError "unrecognized arguments").
Proof.
  apply (_parse_args_failures Namespace (λ p _, p) (λ p _, p) Scripted.reject
           (Toy.with_cadence 100 50)).
  left. reflexivity.
Defined.

(** ** Decimal renderings and delimiters *)

Section StringFacts.
Implicit Types (c a : ascii) (s t d : string).

Lemma append_cons a s t : String a s +:+ t = String a (s +:+ t).
Proof. reflexivity. Qed.

Lemma append_nil_r s : s +:+ "" = s.
Proof. induction s as [|a s IH]; [done|]. by rewrite append_cons, IH. Qed.

Lemma append_assoc s t d : (s +:+ t) +:+ d = s +:+ (t +:+ d).
Proof. induction s as [|a s IH]; [done|]. by rewrite !append_cons, IH. Qed.

Lemma occurs_pretty_N_go c (x : N) s :
  (∀ y, pretty_N_char y ≠ c) → occurs c s = false →
  occurs c (pretty_N_go x s) = false.
Proof.
  intros Hc. revert s. induction (N.lt_wf_0 x) as [x _ IH]; intros s Hs.
  assert (x = 0 ∨ 0 < x)%N as [->|Hx] by lia.
  - by rewrite pretty_N_go_0.
  - rewrite pretty_N_go_step by done. apply IH.
    { by apply N.div_lt. }
    simpl. rewrite Hs. rewrite bool_decide_eq_false_2; [done|apply Hc].
Qed.

(** The decimal rendering of an integer holds digits and a minus sign
    only. *)
Lemma occurs_str c (z : Z) :
  (∀ y, pretty_N_char y ≠ c) → c ≠ "-"%char → occurs c (str z) = false.
Proof.
  intros Hc Hdash.
  assert (Hpos : ∀ p : positive, occurs c (pretty p) = false).
  { intros p. unfold pretty, pretty_positive, pretty, pretty_N.
    destruct (decide (N.pos p = 0%N)); [done|].
    by apply occurs_pretty_N_go. }
  unfold str, pretty, pretty_Z. destruct z as [|p|p].
  - simpl. rewrite bool_decide_eq_false_2; [done|]. apply (Hc 0%N).
  - apply Hpos.
  - simpl. rewrite bool_decide_eq_false_2 by (by intros <-). apply Hpos.
Qed.

Lemma comma_not_digit (y : N) : pretty_N_char y ≠ ","%char.
Proof. unfold pretty_N_char. by repeat case_match. Qed.

Lemma dot_not_digit (y : N) : pretty_N_char y ≠ "."%char.
Proof. unfold pretty_N_char. by repeat case_match. Qed.

(** Two strings that are free of [c], each followed by nothing or by
    something that starts with [c], are cut apart in one way only. *)
Lemma cut_at_delimiter c s1 s2 t1 t2 :
  occurs c s1 = false → occurs c s2 = false →
  (t1 = "" ∨ ∃ d, t1 = String c d) → (t2 = "" ∨ ∃ d, t2 = String c d) →
  s1 +:+ t1 = s2 +:+ t2 → s1 = s2 ∧ t1 = t2.
Proof.
  revert s2. induction s1 as [|a1 s1 IH]; intros [|a2 s2] H1 H2 Ht1 Ht2 Heq;
    simpl in *.
  - done.
  - destruct Ht1 as [->|[d ->]]; [done|]. injection Heq as <- _.
    by rewrite bool_decide_eq_true_2 in H2.
  - destruct Ht2 as [->|[d ->]]; [done|]. injection Heq as -> _.
    by rewrite bool_decide_eq_true_2 in H1.
  - injection Heq as -> Heq.
    apply orb_false_iff in H1 as [_ H1]. apply orb_false_iff in H2 as [_ H2].
    destruct (IH s2 H1 H2 Ht1 Ht2 Heq) as [-> ->]. done.
Qed.
End StringFacts.

(** ** Run naming: distinct runs get distinct names *)

(** X3: the run description determines both the seed and the additional
    description: two configurations get the same description only when
    they agree on both. *)
Theorem _make_run_description_inj a a' :
  _make_run_description a = _make_run_description a' →
  seed a = seed a' ∧ additional_descr a = additional_descr a'.
Proof.
  unfold _make_run_description.
  set (t := λ d : string, if decide (0 < String.length d)
                          then "," +:+ d else "").
  assert (Htail : ∀ d, t d = "" ∨ ∃ d', t d = String "," d').
  { intros d. unfold t. destruct (decide _); [right; by eexists|by left]. }
  assert (Hform : ∀ b, (if decide (0 < String.length (additional_descr b))
                        then ("" +:+ ("seed" +:+ str (seed b)))
                             +:+ ("," +:+ additional_descr b)
                        else "" +:+ ("seed" +:+ str (seed b)))
                       = "seed" +:+ (str (seed b) +:+ t (additional_descr b))).
  { intros b. unfold t. destruct (decide _).
    - by rewrite append_assoc.
    - by rewrite append_nil_r. }
  rewrite !Hform. intros Heq. apply (inj (String.append "seed")) in Heq.
  destruct (cut_at_delimiter ","%char _ _ _ _
              (occurs_str _ (seed a) comma_not_digit ltac:(done))
              (occurs_str _ (seed a') comma_not_digit ltac:(done))
              (Htail _) (Htail _) Heq) as [Hs Ht].
  split; [by apply (inj pretty)|].
  unfold t in Ht.
  destruct (additional_descr a) as [|c d], (additional_descr a') as [|c' d'];
    simpl in Ht; try done.
  by apply (inj (String.append ",")) in Ht.
Qed.

Lemma _make_run_description_inj_witness :
  seed (Toy.options true) = seed (Toy.options false).
Proof.
  apply (_make_run_description_inj (Toy.options true) (Toy.options false)).
  reflexivity.
Defined.

(** ** The objective evaluator: failures and the shape of the record *)

Section ForwardPassMore.
Context {R : Type} `{!TorchOps R} {MS Pad : Type} `{!Model (R := R) MS}
  `{!Viz (R := R) Pad}.
Implicit Types (x e s m nl k : Tensor R) (out r : gmap string (Tensor R))
  (w : World (R := R) (MS := MS) (Pad := Pad)) (self : MnistExperiment (R := R)).

(** The keys [forward_pass] reads from the model output, in the order it
    reads them. *)
#[local] Abbreviation keys_read := ["elbo"; "sample"; "mean"; "nll"; "kl"].

Lemma forward_pass_missing self x y w out ms' before key after :
  model_call x (model_state w) = (Ok out, ms') →
  keys_read = before ++ key :: after →
  (∀ q, q ∈ before → is_Some (out !! q)) →
  out !! key = None →
  forward_pass self x y w
  = (Raise (KeyError key),
     {| model_state := ms'; image_files := image_files w |}).
Proof.
  intros Hc Hkeys Hbefore Hkey.
  unfold forward_pass, call_model, to_device, mbind, M_bind, lift, getitem,
    mret, M_ret.
  rewrite Hc.
  assert (Hpresent : ∀ q, q ∈ before →
    ∃ v, out !! q = Some v) by (intros q Hq; by apply Hbefore).
  destruct before as [|k1 before]; simplify_eq/=; [by rewrite Hkey|].
  destruct (Hpresent "elbo") as [? ->]; [set_solver|].
  destruct before as [|k2 before]; simplify_eq/=; [by rewrite Hkey|].
  destruct (Hpresent "sample") as [? ->]; [set_solver|].
  destruct before as [|k3 before]; simplify_eq/=; [by rewrite Hkey|].
  destruct (Hpresent "mean") as [? ->]; [set_solver|].
  destruct before as [|k4 before]; simplify_eq/=; [by rewrite Hkey|].
  destruct (Hpresent "nll") as [? ->]; [set_solver|].
  destruct before as [|k5 before]; simplify_eq/=; [by rewrite Hkey|].
  by destruct before.
Qed.

(** X4: when the model output lacks some of the keys [forward_pass] reads,
    the call raises [KeyError] for the first missing one in reading order
    (elbo, sample, mean, nll, kl); the model has been evaluated and no
    image file is written. *)
Theorem forward_pass_first_missing_key self x y w out ms' before key after :
  model_call x (model_state w) = (Ok out, ms') →
  keys_read = before ++ key :: after →
  (∀ q, q ∈ before → is_Some (out !! q)) →
  out !! key = None →
  forward_pass self x y w
  = (Raise (KeyError key),
     {| model_state := ms'; image_files := image_files w |}).
Proof. apply forward_pass_missing. Qed.



(** X6: a returned record has exactly the seven keys [out_sample],
    [out_mean], [loss], [elbo_sep], [elbo/elbo], [elbo/recons] and
    [elbo/kl]; [out_sample] and [out_mean] are the model's [sample] and
    [mean], unchanged, and the four metrics are 0-dimensional tensors. *)
Theorem forward_pass_record_keys self x y w r w' out ms' :
  forward_pass self x y w = (Ok r, w') →
  model_call x (model_state w) = (Ok out, ms') →
  dom r = ({["out_sample"; "out_mean"; "loss"; "elbo_sep"; "elbo/elbo";
             "elbo/recons"; "elbo/kl"]} : gset string)
  ∧ r !! "out_sample" = out !! "sample"
  ∧ r !! "out_mean" = out !! "mean"
  ∧ ∀ key, key ∈ ["loss"; "elbo/elbo"; "elbo/recons"; "elbo/kl"] →
      ∃ v, r !! key = Some (scalar v).
Proof.
  intros Hr Hc.
  destruct (forward_pass_inv _ _ _ _ _ _ Hr)
    as (out' & e & s & m & nl & k & Hc' & _ & He & Hs & Hm & Hnl & Hk & ->).
  rewrite Hc in Hc'. injection Hc' as <- _.
  split; [|split; [|split]].
  - rewrite !dom_insert_L, dom_empty_L. set_solver.
  - by rewrite Hs.
  - by rewrite Hm.
  - intros key Hkey. apply list_elem_of_In in Hkey. simpl in Hkey.
    destruct Hkey as [<-|[<-|[<-|[<-|[]]]]]; by eexists.
Qed.
End ForwardPassMore.

(** ** The diagnostic sampler: failure paths and what reaches the disk *)

Section DiagnosticMore.
Context {R : Type} `{!TorchOps R} {MS Pad : Type} `{!Model (R := R) MS}
  `{!Viz (R := R) Pad}.
Implicit Types (x e s m nl : Tensor R) (out r : gmap string (Tensor R))
  (w : World (R := R) (MS := MS) (Pad := Pad)) (self : MnistExperiment (R := R)).
#[local] Existing Instances M_ret M_bind.

(** What a returning call of [save_input_and_recons] has gone through. *)
Lemma save_input_and_recons_ok_inv self x fname n w w' :
  save_input_and_recons self x fname n w = (Ok (), w') →
  ∃ (b c h wd bs : nat) outputs w1 s g,
    shape x = [b; c; h; wd] ∧ n ^ 2 / 2 ≤ b
    ∧ forward_pass self x None w = (Ok outputs, w1)
    ∧ outputs !! "out_sample" = Some s
    ∧ shape s = [bs; c; h; wd] ∧ n ^ 2 / 2 ≤ bs
    ∧ numel_of [n ^ 2; c; h; wd] = numel_of [n ^ 2 / 2; 2; c; h; wd]
    ∧ shape g = [n ^ 2; c; h; wd]
    ∧ data g =
        flat_map (λ i, flat_map (λ j,
          chunk (numel_of [c; h; wd]) (j * (n ^ 2 / 2) + i)
            (take (n ^ 2 / 2 * numel_of [c; h; wd]) (data x)
             ++ take (n ^ 2 / 2 * numel_of [c; h; wd]) (data s)))
          (seq 0 2)) (seq 0 (n ^ 2 / 2))
    ∧ w' = {| model_state := model_state w1;
              image_files := image_files w1 ++
                [mkSavedImage g fname n (img_grid_pad_value g)] |}.
Proof.
  unfold save_input_and_recons, to_device, cpu.
  set (k := n ^ 2 / 2).
  rewrite bind_lift. destruct (shape0 x) as [b|] eqn:Hb0; [|done].
  destruct (decide (b < k)) as [|Hge]; [done|].
  rewrite bind_run.
  destruct (forward_pass self x None w) as [[outputs|] w1] eqn:Hfp; [|done].
  rewrite bind_lift. destruct (slice_to x k) as [X|] eqn:HX; [|done].
  rewrite bind_lift.
  destruct (getitem outputs "out_sample") as [s|] eqn:Hget; [|done].
  rewrite bind_lift. destruct (slice_to s k) as [S|] eqn:HS; [|done].
  rewrite bind_lift. destruct (stack X S) as [T|] eqn:HT; [|done].
  rewrite bind_lift. destruct (permute_1_0_2_3_4 T) as [P|] eqn:HP; [|done].
  rewrite bind_lift. destruct (size X 1) as [c|] eqn:Hc; [|done].
  rewrite bind_lift. destruct (size X 2) as [h|] eqn:Hh; [|done].
  rewrite bind_lift. destruct (size X 3) as [wd|] eqn:Hwd; [|done].
  rewrite bind_lift.
  destruct (reshape P [n ^ 2; c; h; wd]) as [g|] eqn:Hg; [|done].
  unfold save_image. intros [= <-].
  unfold shape0 in Hb0. destruct (shape x) as [|b' rx] eqn:Hx; [done|].
  injection Hb0 as ->. apply Nat.nlt_ge in Hge.
  unfold slice_to in HX. rewrite Hx in HX. injection HX as <-.
  unfold getitem in Hget.
  destruct (outputs !! "out_sample") as [s'|] eqn:Hos; [|done].
  injection Hget as ->.
  unfold slice_to in HS. destruct (shape s) as [|bs rs] eqn:Hs; [done|].
  injection HS as <-.
  unfold stack in HT. cbn [shape data] in HT.
  destruct (decide (_ = _)) as [Heq|]; [|done]. injection HT as <-.
  injection Heq as Hmin <-. rewrite (Nat.min_l k b) in * by done.
  assert (k ≤ bs) as Hbs by lia. rewrite (Nat.min_l k bs) in * by done.
  unfold permute_1_0_2_3_4 in HP. cbn [shape data] in HP.
  destruct rx as [|c0 [|h0 [|wd0 [|? ?]]]]; try done. injection HP as <-.
  unfold size in Hc, Hh, Hwd. cbn in Hc, Hh, Hwd.
  injection Hc as <-. injection Hh as <-. injection Hwd as <-.
  unfold reshape in Hg. cbn [shape data] in Hg.
  destruct (decide (_ = _)) as [Hnum|]; [|done]. injection Hg as <-.
  exists b, c0, h0, wd0, bs, outputs, w1, s. eexists.
  repeat split; try done.
Qed.

(** X7: [save_input_and_recons] looks at the batch size before it touches
    the model: for every [n] and every model, a 0-dimensional batch raises
    [IndexError] and a batch with fewer than [n^2/2] examples raises the
    undersized-batch error, and in both cases the model has not been
    evaluated and no file is written. *)
Theorem save_input_and_recons_checks_first self x fname n w :
  (shape x = [] →
     save_input_and_recons self x fname n w = (Raise IndexError, w))
  ∧ (∀ b rest, shape x = b :: rest → b < n ^ 2 / 2 →
       save_input_and_recons self x fname n w
       = (Raise (RuntimeError (undersized_msg (n ^ 2 / 2) b)), w)).
Proof.
  split.
  - intros Hx. unfold save_input_and_recons. rewrite bind_lift.
    unfold shape0. by rewrite Hx.
  - intros b rest Hx Hb. apply save_input_and_recons_undersized; [|done].
    unfold shape0. by rewrite Hx.
Qed.

Lemma odd_square_half n : Nat.odd n = true → 2 * (n ^ 2 / 2) + 1 = n ^ 2.
Proof.
  intros Hodd. apply Nat.odd_spec in Hodd as [q ->].
  replace ((2 * q + 1) ^ 2) with (1 + (2 * q * q + 2 * q) * 2) by (simpl; lia).
  rewrite Nat.div_add by done. simpl (1 / 2). lia.
Qed.

(** X8: with an odd [n] and images that hold at least one entry,
    [save_input_and_recons] never writes a grid, whatever the batch and
    the model: [n^2/2] input/reconstruction pairs make [n^2 - 1] images,
    which do not fill [n^2] cells. *)
Theorem save_input_and_recons_odd_n self x fname n w (b c h wd : nat) :
  Nat.odd n = true → shape x = [b; c; h; wd] → 0 < c * h * wd →
  is_ok (fst (save_input_and_recons self x fname n w)) = false
  ∧ image_files (snd (save_input_and_recons self x fname n w))
    = image_files w.
Proof.
  intros Hodd Hx Hd.
  destruct (save_input_and_recons self x fname n w) as [res w'] eqn:Hrun.
  destruct (save_input_and_recons_frame _ _ _ _ _ _ _ Hrun)
    as [[-> _]|[Hr Hw]]; [|done].
  exfalso.
  destruct (save_input_and_recons_ok_inv _ _ _ _ _ _ Hrun)
    as (b' & c' & h' & wd' & bs & outputs & w1 & s & g & Hx' & _ & _ & _
        & _ & _ & Hnum & _).
  rewrite Hx in Hx'. injection Hx' as <- <- <- <-.
  apply odd_square_half in Hodd. unfold numel_of in Hnum. cbn [foldr] in Hnum.
  revert Hnum Hodd. generalize (n ^ 2) (n ^ 2 / 2). intros N K Hnum Hodd.
  subst N. nia.
Qed.


Ltac lift_step' :=
  rewrite bind_lift;
  match goal with
  | |- context [match ?v with Ok _ => _ | Raise _ => _ end] => destruct v
  end; [cbv beta | done].

(** X10: once the batch is large enough, [save_input_and_recons]
    evaluates the model exactly once, on the whole batch (not only on the
    [n^2/2] examples it shows), whether or not a later step fails: the
    model is left in the state that one evaluation on [x] leaves it in. *)
Theorem save_input_and_recons_model_once self x fname n w b rest :
  shape x = b :: rest → n ^ 2 / 2 ≤ b →
  model_state (snd (save_input_and_recons self x fname n w))
  = snd (model_call x (model_state w)).
Proof.
  intros Hx Hb. unfold save_input_and_recons, to_device.
  rewrite bind_lift. unfold shape0. rewrite Hx.
  destruct (decide (b < n ^ 2 / 2)) as [Hlt|_].
  { by apply Nat.nlt_ge in Hb. }
  rewrite bind_run.
  pose proof (forward_pass_frame self x None w) as [_ Hms].
  destruct (forward_pass self x None w) as [[outputs|err] w1];
    simpl in Hms; [|done].
  rewrite <- Hms. clear Hms.
  do 9 lift_step'. done.
Qed.

Lemma length_flat_map_blocks {A} (f : nat → list A) (m a n : nat) :
  (∀ j, j < n → length (f (a + j)) = m) →
  length (flat_map f (seq a n)) = n * m.
Proof.
  revert a. induction n as [|n IH]; intros a Hlen; [done|].
  simpl. rewrite length_app, (IH (S a)).
  - rewrite <- (Hlen 0) by lia. rewrite Nat.add_0_r. lia.
  - intros j Hj. replace (S a + j) with (a + S j) by lia. apply Hlen. lia.
Qed.

(** X11: the grid a returning call hands to [save_image] is a well-formed
    tensor when the batch and the reconstruction are: it holds exactly
    [n^2 * c * h * w] entries for its shape [n^2; c; h; w]. *)
Theorem save_input_and_recons_grid_wf self x fname n w w' outputs w1 s :
  wf x → forward_pass self x None w = (Ok outputs, w1) →
  outputs !! "out_sample" = Some s → wf s →
  save_input_and_recons self x fname n w = (Ok (), w') →
  ∃ g (c h wd : nat),
    image_files w' = image_files w ++
      [mkSavedImage g fname n (img_grid_pad_value g)]
    ∧ shape g = [n ^ 2; c; h; wd] ∧ wf g
    ∧ length (data g) = n ^ 2 * (c * h * wd).
Proof.
  intros Hwx Hfp Hos Hws Hrun.
  destruct (save_input_and_recons_ok_inv _ _ _ _ _ _ Hrun)
    as (b & c & h & wd & bs & outputs' & w1' & s' & g & Hx & Hb & Hfp' & Hos'
        & Hs & Hbs & Hnum & Hg & Hdata & ->).
  rewrite Hfp in Hfp'. injection Hfp' as <- <-.
  rewrite Hos in Hos'. injection Hos' as <-.
  set (k := n ^ 2 / 2) in *. set (d := numel_of [c; h; wd]) in *.
  assert (length (data x) = b * d) as Hlx.
  { unfold wf in Hwx. by rewrite Hwx, Hx. }
  assert (length (data s) = bs * d) as Hls.
  { unfold wf in Hws. by rewrite Hws, Hs. }
  assert (length (data g) = k * (2 * d)) as Hlen.
  { rewrite Hdata. apply length_flat_map_blocks. intros i Hi. simpl.
    rewrite app_nil_r, length_app.
    rewrite !length_chunk; [lia| |];
      rewrite length_app, !length_take; nia. }
  assert (wf g) as Hwg.
  { unfold wf. rewrite Hg, Hnum, Hlen. reflexivity. }
  exists g, c, h, wd. split.
  { simpl. pose proof (forward_pass_frame self x None w) as [Hfr _].
    rewrite Hfp in Hfr. simpl in Hfr. by rewrite Hfr. }
  split; [done|]. split; [done|].
  unfold wf in Hwg. rewrite Hwg, Hg. simpl. lia.
Qed.

(** The steps of a non-dry-run invocation of [additional_testing]. *)
Lemma additional_testing_unfold self img_folder w :
  dry_run (args self) = false →
  additional_testing self img_folder w =
    let step := global_step (model_state w) in
    match sample_prior (8 ^ 2) (model_state w) with
    | (Raise err, ms1) =>
        (Raise err, {| model_state := ms1; image_files := image_files w |})
    | (Ok sample, ms1) =>
        let w1 :=
          {| model_state := ms1;
             image_files := image_files w ++
               [mkSavedImage sample
                  (os_path_join img_folder ("sample_" +:+ (str step +:+ ".png")))
                  8 (img_grid_pad_value sample)] |} in
        match test (dataloaders self) with
        | [] => (Raise StopIteration, w1)
        | (x, _) :: _ =>
            save_input_and_recons self x
              (os_path_join img_folder
                 ("reconstruction_" +:+ (str step +:+ ".png"))) 8 w1
        end
    end.
Proof.
  intros Hdry. unfold additional_testing.
  rewrite bind_run. unfold read_global_step. rewrite Hdry. cbn [negb].
  rewrite bind_run. unfold call_sample_prior.
  destruct (sample_prior (8 ^ 2) (model_state w)) as [[smp|err] ms1]; [|done].
  rewrite bind_run. unfold save_image at 1. cbn [model_state image_files].
  rewrite bind_run.
  by destruct (test (dataloaders self)) as [|[x y] rest].
Qed.



(** X14: a diagnostic invocation depends on the datasets only through the
    images of the first test batch: the labels of that batch, the later
    test batches and the training loader make no difference, nor does any
    option other than [dry_run]. *)
Theorem additional_testing_first_batch_only self self' img_folder w :
  dry_run (args self) = dry_run (args self') →
  fst <$> head (test (dataloaders self))
    = fst <$> head (test (dataloaders self')) →
  additional_testing self img_folder w = additional_testing self' img_folder w.
Proof.
  intros Hdry Hhead. destruct (dry_run (args self)) eqn:Hd.
  - unfold additional_testing. rewrite !bind_run. unfold read_global_step.
    by rewrite Hd, <- Hdry.
  - rewrite !additional_testing_unfold by congruence.
    destruct (sample_prior (8 ^ 2) (model_state w)) as [[smp|err] ms1];
      [|done].
    cbv zeta.
    destruct (test (dataloaders self)) as [|[x y] rest],
      (test (dataloaders self')) as [|[x' y'] rest']; simplify_eq/=; done.
Qed.

Lemma os_path_join_sep (a : string) :
  ∃ sep, ∀ b, String.prefix "/" b = false →
    os_path_join a b = a +:+ (sep +:+ b).
Proof.
  destruct (bool_decide (a = "") || ends_with_sep a) eqn:Ha.
  - exists "". intros b Hb. unfold os_path_join. by rewrite Hb, Ha.
  - exists "/". intros b Hb. unfold os_path_join. by rewrite Hb, Ha.
Qed.

Lemma step_name_inj (pre : string) (z z' : Z) :
  pre +:+ (str z +:+ ".png") = pre +:+ (str z' +:+ ".png") → z = z'.
Proof.
  intros Heq. apply (inj (String.append pre)) in Heq.
  destruct (cut_at_delimiter "."%char (str z) (str z') ".png" ".png")
    as [Hs _]; try done.
  - by apply occurs_str; [apply dot_not_digit|].
  - by apply occurs_str; [apply dot_not_digit|].
  - right. by exists "png".
  - right. by exists "png".
  - by apply (inj pretty).
Qed.

Lemma additional_testing_ok_files self img_folder w w' :
  dry_run (args self) = false →
  additional_testing self img_folder w = (Ok (), w') →
  ∃ i1 i2, image_files w' = image_files w ++ [i1; i2]
    ∧ saved_fname i1 = os_path_join img_folder
        ("sample_" +:+ (str (global_step (model_state w)) +:+ ".png"))
    ∧ saved_fname i2 = os_path_join img_folder
        ("reconstruction_" +:+ (str (global_step (model_state w)) +:+ ".png")).
Proof.
  intros Hdry. rewrite additional_testing_unfold by done. cbv zeta.
  destruct (sample_prior (8 ^ 2) (model_state w)) as [[smp|err] ms1]; [|done].
  destruct (test (dataloaders self)) as [|[x y] rest]; [done|].
  intros Hrun.
  destruct (save_input_and_recons_frame _ _ _ _ _ _ _ Hrun)
    as [[_ (g & pad & Hw)]|[? _]]; [|done].
  simpl in Hw. eexists _, _. rewrite Hw, <- app_assoc. by repeat split.
Qed.

(** X15: the file names of the diagnostics never collide: the two files of
    one returning invocation have different names, and two returning
    invocations into the same folder at different [global_step] values
    write under four different names, so neither overwrites the other. *)
Theorem additional_testing_names_distinct self self' img_folder w1 w1' w2 w2' :
  dry_run (args self) = false → dry_run (args self') = false →
  additional_testing self img_folder w1 = (Ok (), w1') →
  additional_testing self' img_folder w2 = (Ok (), w2') →
  (∃ i1 i2, image_files w1' = image_files w1 ++ [i1; i2]
     ∧ saved_fname i1 ≠ saved_fname i2)
  ∧ (global_step (model_state w1) ≠ global_step (model_state w2) →
     ∀ f1 f2,
       f1 ∈ drop (length (image_files w1)) (image_files w1') →
       f2 ∈ drop (length (image_files w2)) (image_files w2') →
       saved_fname f1 ≠ saved_fname f2).
Proof.
  intros Hd1 Hd2 Hr1 Hr2.
  destruct (additional_testing_ok_files _ _ _ _ Hd1 Hr1)
    as (a1 & b1 & Hw1 & Ha1 & Hb1).
  destruct (additional_testing_ok_files _ _ _ _ Hd2 Hr2)
    as (a2 & b2 & Hw2 & Ha2 & Hb2).
  destruct (os_path_join_sep img_folder) as [sep Hsep].
  rewrite Hsep in Ha1, Hb1, Ha2, Hb2 by done.
  assert (Hcross : ∀ z z' : Z,
    img_folder +:+ (sep +:+ ("sample_" +:+ (str z +:+ ".png")))
    ≠ img_folder +:+ (sep +:+ ("reconstruction_" +:+ (str z' +:+ ".png")))).
  { intros z z' Heq. apply (inj (String.append img_folder)) in Heq.
    apply (inj (String.append sep)) in Heq. discriminate Heq. }
  assert (Hsame : ∀ (pre : string) (z z' : Z), z ≠ z' →
    img_folder +:+ (sep +:+ (pre +:+ (str z +:+ ".png")))
    ≠ img_folder +:+ (sep +:+ (pre +:+ (str z' +:+ ".png")))).
  { intros pre z z' Hne Heq. apply (inj (String.append img_folder)) in Heq.
    apply (inj (String.append sep)) in Heq. by apply step_name_inj in Heq. }
  split.
  - exists a1, b1. split; [done|]. rewrite Ha1, Hb1. apply Hcross.
  - intros Hne f1 f2. rewrite Hw1, Hw2, !drop_app_length.
    intros Hf1 Hf2. apply list_elem_of_In in Hf1, Hf2. simpl in Hf1, Hf2.
    destruct Hf1 as [<-|[<-|[]]], Hf2 as [<-|[<-|[]]];
      rewrite ?Ha1, ?Hb1, ?Ha2, ?Hb2.
    + by apply Hsame.
    + apply Hcross.
    + intros Heq. by apply (Hcross _ _ (eq_sym Heq)).
    + by apply Hsame.
Qed.
End DiagnosticMore.

(** ** The diagnostic sampler: how the two steps fit together *)

Section DiagnosticCompose.
Context {R : Type} `{!TorchOps R} {MS Pad : Type} `{!Model (R := R) MS}
  `{!Viz (R := R) Pad}.
Implicit Types (x e s m nl : Tensor R) (out r : gmap string (Tensor R))
  (w : World (R := R) (MS := MS) (Pad := Pad)) (self : MnistExperiment (R := R)).
#[local] Existing Instances M_ret M_bind.


(** X17: a reconstruction that does not line up with the batch stops the
    call in [torch.stack]: when the model's [sample] has fewer than
    [n^2/2] examples, or images of another shape than the batch's, the
    call raises after the model evaluation and writes no file. *)
Theorem save_input_and_recons_misaligned self x fname n w
    (b bs : nat) rx rs outputs w1 s :
  shape x = b :: rx → n ^ 2 / 2 ≤ b →
  forward_pass self x None w = (Ok outputs, w1) →
  outputs !! "out_sample" = Some s → shape s = bs :: rs →
  bs < n ^ 2 / 2 ∨ rs ≠ rx →
  save_input_and_recons self x fname n w
  = (Raise (TorchRuntimeError "stack"), w1)
  ∧ image_files w1 = image_files w.
Proof.
  intros Hx Hb Hfp Hos Hs Hbad.
  split.
  2:{ pose proof (forward_pass_frame self x None w) as [Hfr _].
      by rewrite Hfp in Hfr. }
  unfold save_input_and_recons, to_device, cpu.
  set (k := n ^ 2 / 2) in *. clearbody k.
  rewrite bind_lift. unfold shape0. rewrite Hx.
  destruct (decide (b < k)) as [Hlt|_].
  { by apply Nat.nlt_ge in Hb. }
  rewrite bind_run, Hfp.
  rewrite bind_lift. unfold slice_to at 1. rewrite Hx.
  rewrite bind_lift. unfold getitem. rewrite Hos.
  rewrite bind_lift. unfold slice_to. rewrite Hs.
  rewrite bind_lift. unfold stack. cbn [shape data].
  destruct (decide (_ = _)) as [Heq|_]; [|done].
  injection Heq as Hmin Hr. destruct Hbad as [Hlt|Hne]; [|by destruct Hne].
  rewrite (Nat.min_l _ b) in Hmin by done.
  rewrite (Nat.min_r _ bs) in Hmin by (by apply Nat.lt_le_incl).
  rewrite Hmin in Hlt. by apply Nat.lt_irrefl in Hlt.
Qed.
End DiagnosticCompose.

(** ** The further properties at the concrete instances *)

Lemma forward_pass_first_missing_key_witness :
  fst (forward_pass (Scripted.experiment []) (Toy.batch 3) None
         (Scripted.world false false ["kl"; "mean"] 7))
  = Raise (KeyError "mean").
Proof.
  rewrite (forward_pass_first_missing_key (Scripted.experiment []) (Toy.batch 3)
             None (Scripted.world false false ["kl"; "mean"] 7)
             (foldr delete (Toy.output (Toy.batch 3)) ["kl"; "mean"])
             (Scripted.mkState false false ["kl"; "mean"] 7)
             ["elbo"; "sample"] "mean" ["nll"; "kl"]); [reflexivity..| |].
  - intros q Hq. apply list_elem_of_In in Hq. simpl in Hq.
    destruct Hq as [<-|[<-|[]]]; eexists; reflexivity.
  - reflexivity.
Defined.


Lemma forward_pass_record_keys_witness :
  ∃ r, fst (forward_pass (Toy.experiment false 3) (Toy.batch 3) None
              Toy.world0) = Ok r
    ∧ r !! "out_mean" = Some (Toy.batch 3)
    ∧ base.size (dom r) = 7.
Proof.
  destruct (forward_pass (Toy.experiment false 3) (Toy.batch 3) None Toy.world0)
    as [[r|err] w'] eqn:Hfp; [|discriminate Hfp].
  destruct (forward_pass_record_keys (Toy.experiment false 3) (Toy.batch 3) None
              Toy.world0 r w' (Toy.output (Toy.batch 3))
              (model_state Toy.world0) Hfp eq_refl) as (Hdom & _ & Hmean & _).
  exists r. split; [reflexivity|]. split; [exact Hmean|].
  rewrite Hdom. reflexivity.
Defined.

Lemma save_input_and_recons_checks_first_witness :
  save_input_and_recons (Scripted.experiment []) (Toy.batch 31) "r.png" 8
    (Scripted.world true true [] 7)
  = (Raise (RuntimeError
       "32 data points required, but given batch has size 31. Please use a larger batch."),
     Scripted.world true true [] 7).
Proof.
  destruct (save_input_and_recons_checks_first (Scripted.experiment [])
              (Toy.batch 31) "r.png" 8 (Scripted.world true true [] 7))
    as [_ Hlow].
  apply (Hlow 31 [1; 1; 1]); [reflexivity|vm_compute; lia].
Defined.

Lemma save_input_and_recons_odd_n_witness :
  is_ok (fst (save_input_and_recons (Toy.experiment false 40) (Toy.batch 40)
                "r.png" 7 Toy.world0)) = false.
Proof.
  apply (save_input_and_recons_odd_n (Toy.experiment false 40) (Toy.batch 40)
           "r.png" 7 Toy.world0 40 1 1 1); [reflexivity|reflexivity|lia].
Defined.

Lemma save_input_and_recons_model_once_witness :
  model_state (snd (save_input_and_recons (Scripted.experiment [])
                      (Toy.batch 3) "r.png" 2
                      (Scripted.world false false ["sample"] 7)))
  = Scripted.mkState false false ["sample"] 7.
Proof.
  rewrite (save_input_and_recons_model_once (Scripted.experiment [])
             (Toy.batch 3) "r.png" 2 (Scripted.world false false ["sample"] 7)
             3 [1; 1; 1]); [reflexivity | reflexivity | vm_compute; lia].
Defined.

Lemma save_input_and_recons_grid_wf_witness :
  ∃ g, saved_tensor <$> image_files
         (snd (save_input_and_recons (Toy.experiment false 3) (Toy.batch 3)
                 "r.png" 2 Toy.world0)) = [g]
    ∧ wf g.
Proof.
  destruct (save_input_and_recons_grid_wf (Toy.experiment false 3)
              (Toy.batch 3) "r.png" 2 Toy.world0
              (snd (save_input_and_recons (Toy.experiment false 3)
                      (Toy.batch 3) "r.png" 2 Toy.world0))
              (match fst (forward_pass (Toy.experiment false 3) (Toy.batch 3)
                            None Toy.world0) with
               | Ok r => r
               | Raise _ => ∅
               end)
              Toy.world0
              {| shape := [3; 1; 1; 1];
                 data := Qplus 100 <$> data (Toy.batch 3) |})
    as (g & c & h & wd & Hfiles & Hshape & Hwf & Hlen);
    [reflexivity..|].
  exists g. rewrite Hfiles. split; [reflexivity|exact Hwf].
Defined.



Lemma additional_testing_first_batch_only_witness :
  additional_testing (Toy.experiment false 32) "imgs" Toy.world0
  = additional_testing
      {| args := Toy.options false;
         dataloaders :=
           {| train := [(Toy.batch 2, Toy.labels 2)];
              test := [(Toy.batch 32, Toy.batch 32);
                       (Toy.batch 5, Toy.labels 5)] |} |}
      "imgs" Toy.world0.
Proof.
  apply additional_testing_first_batch_only; reflexivity.
Defined.

Lemma additional_testing_names_distinct_witness :
  ∃ i1 i2,
    image_files (snd (additional_testing (Toy.experiment false 32) "imgs"
                        Toy.world0)) = [i1; i2]
    ∧ saved_fname i1 ≠ saved_fname i2.
Proof.
  destruct (additional_testing_names_distinct (Toy.experiment false 32)
              (Toy.experiment false 32) "imgs"
              Toy.world0
              (snd (additional_testing (Toy.experiment false 32) "imgs"
                      Toy.world0))
              Toy.world0
              (snd (additional_testing (Toy.experiment false 32) "imgs"
                      Toy.world0)))
    as [(i1 & i2 & Hfiles & Hne) _];
    [reflexivity | reflexivity | vm_compute; reflexivity
     | vm_compute; reflexivity |].
  exists i1, i2. split; [exact Hfiles|exact Hne].
Defined.


Lemma save_input_and_recons_misaligned_witness :
  fst (save_input_and_recons (Scripted.experiment []) (Toy.batch 3) "r.png" 2
         (Short.world 1))
  = Raise (TorchRuntimeError "stack").
Proof.
  destruct (save_input_and_recons_misaligned (Scripted.experiment [])
              (Toy.batch 3) "r.png" 2 (Short.world 1) 3 1 [1; 1; 1] [1; 1; 1]
              (match fst (forward_pass (Scripted.experiment []) (Toy.batch 3)
                            None (Short.world 1)) with
               | Ok r => r
               | Raise _ => ∅
               end)
              (Short.world 1)
              {| shape := [1; 1; 1; 1]; data := [0%Q] |}) as [Hrun _];
    [reflexivity | vm_compute; lia | reflexivity | reflexivity | reflexivity
     | left; vm_compute; lia |].
  rewrite Hrun. reflexivity.
Defined.
